(** * pthreadpp: lifecycle wrappers and the error-checked mutex

    A shallow embedding of [include/dropins/pthreadpp.h].

    The header wraps objects of the pthread library.  The library itself is
    outside the repository, so its functions are parameters of the model:
    each one is a function of the state of the library (the [world]) and of
    the object behind the pointer it is given.  Every call of a library
    function is recorded in a log, so that "calls destroy once" and "does
    not call destroy" are statements about that log. *)

From Stdlib Require Import ZArith List Bool Lia.
Import ListNotations.
Local Open Scope Z_scope.

Set Implicit Arguments.

(** ** C values *)

(** [int]: error codes are only compared, never computed with. *)
Definition int : Type := Z.

(** [!x] for an [int] x. *)
Definition lnot (x : int) : bool := x =? 0.

(** The two addresses the header ever forms for a library call: [0] and
    [&m_object] of the wrapper at hand. *)
Inductive pointer : Type :=
| null
| addr_m_object.

(** ** The pthread library as seen from the header *)

(** The library functions the header calls. *)
Inductive pthread_call : Type :=
| call_init
| call_destroy
| call_lock
| call_trylock
| call_unlock.

Definition pthread_call_eq_dec (a b : pthread_call) : {a = b} + {a <> b}.
Proof. decide equality. Defined.

(** How often [c] occurs in a log. *)
Definition times (c : pthread_call) (log : list pthread_call) : nat :=
  count_occ pthread_call_eq_dec log c.

(** State outside the wrapper: the library's own state, and the log of the
    calls made so far (oldest first). *)
Record machine (world : Type) : Type := Machine {
  os : world;
  calls : list pthread_call
}.

(** A library function taking [T*].  It sees what is behind the pointer
    ([None] behind a null pointer), and gives back its return code, the
    content it leaves behind the pointer, and the new state of the library. *)
Definition primitive (world T : Type) : Type :=
  option T -> world -> int * option T * world.

(** [<errno.h>]: the two codes the header names. *)
Class Errno : Type := {
  EINVAL : int;
  EBUSY : int
}.

(** ** Monads for the two layers *)

Class Monad (m : Type -> Type) : Type := {
  ret : forall A : Type, A -> m A;
  bind : forall A B : Type, m A -> (A -> m B) -> m B
}.
Arguments ret {m _ A} _.
Arguments bind {m _ A B} _ _.

Declare Scope monad_scope.
Delimit Scope monad_scope with monad.
Notation "x <- c1 ;; c2" := (bind c1 (fun x => c2))
  (at level 61, c1 at next level, right associativity) : monad_scope.
Notation "c1 ;; c2" := (bind c1 (fun _ => c2))
  (at level 61, right associativity) : monad_scope.
Local Open Scope monad_scope.

(** Methods declared [throw()]: they only change the state. *)
Definition State (St A : Type) : Type := St -> A * St.

#[export] Instance State_Monad (St : Type) : Monad (State St) := {
  ret := fun A (a : A) (st : St) => (a, st);
  bind := fun A B (c : State St A) (k : A -> State St B) (st : St) =>
            let (a, st') := c st in k a st'
}.

Definition gets (St A : Type) (f : St -> A) : State St A :=
  fun st => (f st, st).

Definition modify (St : Type) (f : St -> St) : State St unit :=
  fun st => (tt, f st).

(** [fatal_error]: the exception of the object classes. *)
Record fatal_error : Type := Fatal_error {
  m_error_code : int
}.

(** [fatal_error::error_code()]. *)
Definition error_code (this : fatal_error) : int := m_error_code this.

(** How a call that may throw ends. *)
Inductive outcome (A : Type) : Type :=
| returned (a : A)
| thrown (e : fatal_error).
Arguments thrown {A} e.

(** Methods that may throw: the state survives the throw, the rest of the
    body is skipped. *)
Definition Throwing (St A : Type) : Type := St -> outcome A * St.

#[export] Instance Throwing_Monad (St : Type) : Monad (Throwing St) := {
  ret := fun A (a : A) (st : St) => (returned a, st);
  bind := fun A B (c : Throwing St A) (k : A -> Throwing St B) (st : St) =>
            match c st with
            | (returned a, st') => k a st'
            | (thrown e, st') => (thrown e, st')
            end
}.

(** [throw e]. *)
Definition throw (St A : Type) (e : fatal_error) : Throwing St A :=
  fun st => (thrown e, st).
Arguments throw {St A} e.

(** A [throw()] computation used inside a throwing one. *)
Definition lift (St A : Type) (c : State St A) : Throwing St A :=
  fun st => let (a, st') := c st in (returned a, st').

(** ** [wrapper_base<ObjectType, DestroyFn>] *)

(** The template parameters of [wrapper_base]. *)
Class BaseParams (world : Type) : Type := {
  ObjectType : Type;
  DestroyFn : primitive world ObjectType
}.

Section WrapperBase.
Context {world : Type} {errno : Errno} {P : BaseParams world}.

(** The data members. *)
Record wrapper_base : Type := Wrapper_base {
  m_valid : bool;
  m_object : ObjectType
}.

(** A method of a wrapper changes the wrapper and the machine around it. *)
Definition M (A : Type) : Type := State (wrapper_base * machine world) A.

Definition get_m_valid : M bool := gets (fun st => m_valid (fst st)).

Definition get_m_object : M ObjectType := gets (fun st => m_object (fst st)).

(** [m_valid=b;] *)
Definition set_m_valid (b : bool) : M unit :=
  modify (fun st => (Wrapper_base b (m_object (fst st)), snd st)).

(** [m_object=o;] *)
Definition set_m_object (o : ObjectType) : M unit :=
  modify (fun st => (Wrapper_base (m_valid (fst st)) o, snd st)).

(** What a library function finds behind a pointer into [this]. *)
Definition deref (p : pointer) (this : wrapper_base) : option ObjectType :=
  match p with
  | null => None
  | addr_m_object => Some (m_object this)
  end.

(** What [m_object] holds once a library function has left [out] behind the
    pointer it was given. *)
Definition stored (out : option ObjectType) (old : ObjectType) : ObjectType :=
  match out with
  | Some o => o
  | None => old
  end.

(** [f(p)] for a library function [f]: the call is logged as [c], the
    library's state and the object behind [p] change as [f] says, and the
    call's value is [f]'s return code. *)
Definition call (f : primitive world ObjectType) (c : pthread_call)
    (p : pointer) : M int :=
  fun st =>
    let this := fst st in
    let s := snd st in
    match f (deref p this) (os s) with
    | (error, out, w) =>
        (error,
         (Wrapper_base (m_valid this) (stored out (m_object this)),
          Machine w (calls s ++ [c])))
    end.

(** [wrapper_base()]: [m_valid(false)]; [m_object] is left as the storage
    happens to be, here [indeterminate]. *)
Definition wrapper_base_ctor (indeterminate : ObjectType) : wrapper_base :=
  Wrapper_base false indeterminate.

(** [wrapper_base(const ObjectType& initializer)]. *)
Definition wrapper_base_ctor_initializer (initializer : ObjectType)
    : wrapper_base :=
  Wrapper_base true initializer.

(** The class declares no destructor: the implicit one ends the lifetime of
    the two members and calls nothing. *)
Definition wrapper_base_dtor (this : wrapper_base) (s : machine world)
    : machine world :=
  s.

(** [const ObjectType* operator&() const]. *)
Definition operator_addr_const (this : wrapper_base) : pointer :=
  if m_valid this then addr_m_object else null.

(** [ObjectType* operator&()]. *)
Definition operator_addr (this : wrapper_base) : pointer :=
  if m_valid this then addr_m_object else null.

(** [is_valid()]. *)
Definition is_valid (this : wrapper_base) : bool := m_valid this.

(** [destroy()]. *)
Definition destroy : M int :=
  valid <- get_m_valid ;;
  if negb valid then ret EINVAL
  else
    error <- call DestroyFn call_destroy addr_m_object ;;
    set_m_valid (negb (lnot error)) ;;
    ret error.

(** [attach(object)]. *)
Definition attach (object : ObjectType) : M unit :=
  destroy ;;
  set_m_object object ;;
  set_m_valid true.

(** [detach()]. *)
Definition detach : M ObjectType :=
  set_m_valid false ;;
  get_m_object.

(** [init_done(init_error)]. *)
Definition init_done (init_error : int) : M int :=
  set_m_valid (lnot init_error) ;;
  ret init_error.

(** [handle()]. *)
Definition handle : pointer := addr_m_object.

End WrapperBase.

Arguments wrapper_base {world} P.
Arguments M {world} P A.

(** ** [wrapper<ObjectType, AttributeType, InitFn, DestroyFn>] *)

(** The template parameters of [wrapper]: those of its base, and the
    attribute type and the init function.  [InitFn] takes the object
    pointer and a [const AttributeType*] ([None] for a null pointer). *)
Class Params (world : Type) : Type := {
  base_params :: BaseParams world;
  AttributeType : Type;
  InitFn : option ObjectType -> option AttributeType -> world ->
           int * option ObjectType * world
}.

Section Wrapper.
Context {world : Type} {errno : Errno} {P : Params world}.

(** The class adds no member to its base. *)
Definition wrapper : Type := wrapper_base base_params.

(** [wrapper()]. *)
Definition wrapper_ctor (indeterminate : ObjectType) : wrapper :=
  wrapper_base_ctor indeterminate.

(** [wrapper(const ObjectType& initializer)]. *)
Definition wrapper_ctor_initializer (initializer : ObjectType) : wrapper :=
  wrapper_base_ctor_initializer initializer.

(** The implicit destructor: that of the base. *)
Definition wrapper_dtor (this : wrapper) (s : machine world) : machine world :=
  wrapper_base_dtor this s.

(** [init(attrs)]; [None] is the default argument [0]. *)
Definition init (attrs : option AttributeType) : M base_params int :=
  destroy ;;
  init_error <- call (fun p => InitFn p attrs) call_init handle ;;
  init_done init_error.

End Wrapper.

Arguments wrapper {world} P.

(** ** [mutex] *)

(** The part of [<pthread.h>] the mutex classes use. *)
Class Pthread (world : Type) : Type := {
  pthread_mutex_t : Type;
  pthread_mutexattr_t : Type;
  pthread_mutex_init :
    option pthread_mutex_t -> option pthread_mutexattr_t -> world ->
    int * option pthread_mutex_t * world;
  pthread_mutex_destroy : primitive world pthread_mutex_t;
  pthread_mutex_lock : primitive world pthread_mutex_t;
  pthread_mutex_trylock : primitive world pthread_mutex_t;
  pthread_mutex_unlock : primitive world pthread_mutex_t
}.

(** [typedef wrapper<pthread_mutex_t, pthread_mutexattr_t,
    pthread_mutex_init, pthread_mutex_destroy> mutex_wrapper]. *)
#[export] Instance mutex_wrapper_params (world : Type) (L : Pthread world)
    : Params world :=
  {| base_params :=
       {| ObjectType := pthread_mutex_t;
          DestroyFn := pthread_mutex_destroy |};
     AttributeType := pthread_mutexattr_t;
     InitFn := pthread_mutex_init |}.

Section Mutex.
Context {world : Type} {errno : Errno} {L : Pthread world}.

Definition mutex_wrapper : Type := wrapper (mutex_wrapper_params L).

(** The data member. *)
Record mutex : Type := Mutex {
  m_mutex : mutex_wrapper
}.

(** A method of a mutex changes the mutex and the machine, and may throw. *)
Definition X (A : Type) : Type := Throwing (mutex * machine world) A.

(** A method of [m_mutex] called from a method of the mutex. *)
Definition on_m_mutex (A : Type) (c : M base_params A) : X A :=
  lift (fun st =>
          match c (m_mutex (fst st), snd st) with
          | (a, (w, s)) => (a, (Mutex w, s))
          end).

(** [check_error(error_code)]. *)
Definition check_error (error_code : int) : X unit :=
  if negb (lnot error_code) then throw (Fatal_error error_code)
  else ret tt.

(** [pthread_mutex_f(&m_mutex)]: the address is the one [operator&] of the
    wrapper gives. *)
Definition call_on_m_mutex (f : primitive world pthread_mutex_t)
    (c : pthread_call) : X int :=
  on_m_mutex (fun st => call f c (operator_addr (fst st)) st).

(** What a library function finds behind [&m_mutex]. *)
Definition behind_m_mutex (this : mutex) : option pthread_mutex_t :=
  deref (operator_addr (m_mutex this)) (m_mutex this).

(** [mutex(const pthread_mutexattr_t* attrs=0)].  When the body throws, no
    object comes to exist and the member already constructed is destructed. *)
Definition mutex_ctor (attrs : option pthread_mutexattr_t)
    (indeterminate : pthread_mutex_t) (s : machine world)
    : outcome mutex * machine world :=
  let body : X unit :=
    error <- on_m_mutex (init attrs) ;;
    check_error error in
  match body (Mutex (wrapper_ctor indeterminate), s) with
  | (returned _, (this, s')) => (returned this, s')
  | (thrown e, (this, s')) => (thrown e, wrapper_dtor (m_mutex this) s')
  end.

(** [mutex(const pthread_mutex_t& initializer)]. *)
Definition mutex_ctor_initializer (initializer : pthread_mutex_t) : mutex :=
  Mutex (wrapper_ctor_initializer initializer).

(** [~mutex()]: the body, then the member's destructor. *)
Definition mutex_dtor (this : mutex) (s : machine world) : machine world :=
  match destroy (m_mutex this, s) with
  | (_, (w, s')) => wrapper_dtor w s'
  end.

(** [lock()]. *)
Definition lock : X unit :=
  error <- call_on_m_mutex pthread_mutex_lock call_lock ;;
  check_error error.

(** [trylock()]. *)
Definition trylock : X bool :=
  error <- call_on_m_mutex pthread_mutex_trylock call_trylock ;;
  if error =? EBUSY then ret false
  else
    check_error error ;;
    ret true.

(** [unlock()]. *)
Definition unlock : X unit :=
  error <- call_on_m_mutex pthread_mutex_unlock call_unlock ;;
  check_error error.

(** [const pthread_mutex_t* handle() const]: [&m_mutex]. *)
Definition mutex_handle_const : X pointer :=
  lift (gets (fun st => operator_addr_const (m_mutex (fst st)))).

(** [pthread_mutex_t* handle()]: [&m_mutex]. *)
Definition mutex_handle : X pointer :=
  lift (gets (fun st => operator_addr (m_mutex (fst st)))).

(** The calls a user can make on a constructed mutex before it is
    destructed. *)
Inductive mutex_op : Type :=
| op_lock
| op_trylock
| op_unlock
| op_handle
| op_handle_const.

(** The state one call leaves, whether it returned or threw. *)
Definition mutex_step (o : mutex_op) (st : mutex * machine world)
    : mutex * machine world :=
  match o with
  | op_lock => snd (lock st)
  | op_trylock => snd (trylock st)
  | op_unlock => snd (unlock st)
  | op_handle => snd (mutex_handle st)
  | op_handle_const => snd (mutex_handle_const st)
  end.

(** The state a sequence of calls leaves. *)
Fixpoint mutex_run (ops : list mutex_op) (st : mutex * machine world)
    : mutex * machine world :=
  match ops with
  | [] => st
  | o :: ops' => mutex_run ops' (mutex_step o st)
  end.

(** The mutex objects that come to exist: those a constructor returned. *)
Inductive constructed : mutex -> machine world -> Prop :=
| constructed_attrs attrs indeterminate s this s' :
    mutex_ctor attrs indeterminate s = (returned this, s') ->
    constructed this s'
| constructed_initializer initializer s :
    constructed (mutex_ctor_initializer initializer) s.

End Mutex.

Arguments mutex {world} L.
Arguments X {world} L A.

(** The library calls one call on a mutex makes. *)
Definition op_calls (o : mutex_op) : list pthread_call :=
  match o with
  | op_lock => [call_lock]
  | op_trylock => [call_trylock]
  | op_unlock => [call_unlock]
  | op_handle => []
  | op_handle_const => []
  end.

(** ** The guards *)

Section Guards.
Context {world : Type} {errno : Errno} {L : Pthread world}.

(** [mutex_wrapper_guard]: its data member is the [pthread_mutex_t*]
    [m_mutex]. *)
Record mutex_wrapper_guard : Type := Mutex_wrapper_guard {
  guard_m_mutex : pointer
}.

(** [mutex_wrapper_guard(pthread_mutex_t* m)], for a pointer into the
    wrapper of the state: [m_mutex(m)], then [pthread_mutex_lock(m_mutex)]
    with the code dropped. *)
Definition mutex_wrapper_guard_ctor_raw (m : pointer)
    : M (@base_params _ (mutex_wrapper_params L)) mutex_wrapper_guard :=
  call (P := @base_params _ (mutex_wrapper_params L))
    pthread_mutex_lock call_lock m ;;
  ret (Mutex_wrapper_guard m).

(** [mutex_wrapper_guard(mutex_wrapper& m)]: [m_mutex(&m)], where [&m] is
    the wrapper's [operator&], then [pthread_mutex_lock(m_mutex)] with the
    code dropped. *)
Definition mutex_wrapper_guard_ctor
    : M (@base_params _ (mutex_wrapper_params L)) mutex_wrapper_guard :=
  m <- gets (fun st => operator_addr (fst st)) ;;
  call (P := @base_params _ (mutex_wrapper_params L))
    pthread_mutex_lock call_lock m ;;
  ret (Mutex_wrapper_guard m).

(** [~mutex_wrapper_guard()]: [pthread_mutex_unlock(m_mutex)] with the code
    dropped. *)
Definition mutex_wrapper_guard_dtor (this : mutex_wrapper_guard)
    : M (@base_params _ (mutex_wrapper_params L)) unit :=
  call (P := @base_params _ (mutex_wrapper_params L))
    pthread_mutex_unlock call_unlock (guard_m_mutex this) ;;
  ret tt.

(** [{ mutex_wrapper_guard g(m); }]: the lifetime of a guard around
    nothing. *)
Definition mutex_wrapper_guard_block
    : M (@base_params _ (mutex_wrapper_params L)) unit :=
  g <- mutex_wrapper_guard_ctor ;;
  mutex_wrapper_guard_dtor g.

(** [{ mutex_wrapper_guard g(m); m.detach(); }]: the wrapper gives its
    object away inside the guarded block. *)
Definition mutex_wrapper_guard_block_detach
    : M (@base_params _ (mutex_wrapper_params L)) unit :=
  g <- mutex_wrapper_guard_ctor ;;
  detach ;;
  mutex_wrapper_guard_dtor g.

(** [mutex_guard]: its data member is the reference [m_mutex] to the mutex
    of the state. *)
Inductive mutex_guard : Type :=
| Mutex_guard.

(** [mutex_guard(mutex& m)]: [m_mutex(m)], then [m_mutex.lock()]. *)
Definition mutex_guard_ctor : X L mutex_guard :=
  lock ;;
  ret Mutex_guard.

(** [~mutex_guard()]: [m_mutex.unlock()]. *)
Definition mutex_guard_dtor (this : mutex_guard) : X L unit :=
  unlock.

(** [{ mutex_guard g(m); }]: the lifetime of a guard around nothing; the
    destructor runs when the constructor returned. *)
Definition mutex_guard_block : X L unit :=
  g <- mutex_guard_ctor ;;
  mutex_guard_dtor g.

End Guards.

Arguments mutex_wrapper_guard : clear implicits.

(** ** Reading the result of a call *)

(** The value a call gave. *)
Definition value (A St : Type) (r : A * St) : A := fst r.

(** The object as the call left it. *)
Definition object_after (A T S : Type) (r : A * (T * S)) : T := fst (snd r).

(** The machine as the call left it. *)
Definition machine_after (A T S : Type) (r : A * (T * S)) : S := snd (snd r).

(** ** A simulated library

    A stand-in for the pthread library whose return codes are scripted: the
    state of the library is the list of the codes still to be handed out,
    every function hands out the next one (0 once the list is empty) and
    leaves the object as it found it.  Objects and attributes are
    numbers. *)
Module Sim.

Definition world : Type := list int.

Definition stub (T : Type) : primitive world T :=
  fun p w =>
    match w with
    | [] => (0, p, [])
    | c :: w' => (c, p, w')
    end.

(** The values of Linux's [<errno.h>]. *)
Definition errno : Errno := {| EINVAL := 22; EBUSY := 16 |}.

Definition lib : Pthread world :=
  {| pthread_mutex_t := Z;
     pthread_mutexattr_t := Z;
     pthread_mutex_init := fun p _ => stub p;
     pthread_mutex_destroy := @stub Z;
     pthread_mutex_lock := @stub Z;
     pthread_mutex_trylock := @stub Z;
     pthread_mutex_unlock := @stub Z |}.

Definition params : Params world := mutex_wrapper_params lib.

Definition base : BaseParams world := @base_params _ params.

(** A machine whose library will hand out [script], with an empty log. *)
Definition boot (script : list int) : machine world := Machine script [].

(** A valid wrapper holding object 7. *)
Definition held : wrapper_base base := Wrapper_base (P := base) true 7.

(** A mutex built from the initializer 7. *)
Definition mtx : mutex lib := mutex_ctor_initializer (L := lib) 7.

(** The header's functions over the simulated library. *)
Definition destroy : M base int := destroy (errno := errno) (P := base).

Definition attach (object : Z) : M base unit :=
  attach (errno := errno) (P := base) object.

Definition detach : M base Z := detach (P := base).

Definition new_mutex (attrs : option Z) (indeterminate : Z)
    (s : machine world) : outcome (mutex lib) * machine world :=
  mutex_ctor (errno := errno) (L := lib) attrs indeterminate s.

Definition delete_mutex (this : mutex lib) (s : machine world)
    : machine world :=
  mutex_dtor (errno := errno) this s.

(** The mutex [new_mutex None 0] returns when the library accepts it. *)
Definition made : mutex lib := Mutex (Wrapper_base (P := base) true 0).

Definition lock : X lib unit := lock (L := lib).

Definition trylock : X lib bool := trylock (errno := errno) (L := lib).

Definition unlock : X lib unit := unlock (L := lib).

Definition run (ops : list mutex_op) (st : mutex lib * machine world)
    : mutex lib * machine world :=
  mutex_run (errno := errno) ops st.

(** An invalid wrapper whose storage holds 7. *)
Definition empty : wrapper_base base := Wrapper_base (P := base) false 7.

Definition init (attrs : option Z) : M base int :=
  init (errno := errno) (P := params) attrs.

Definition wrapper_guard_block : M base unit :=
  mutex_wrapper_guard_block (L := lib).

Definition wrapper_guard_block_detach : M base unit :=
  mutex_wrapper_guard_block_detach (L := lib).

Definition guard_block : X lib unit := mutex_guard_block (L := lib).

End Sim.

(** * Properties of [wrapper_base] *)

Section WrapperBaseFacts.
Context {world : Type} {errno : Errno} {P : BaseParams world}.
Implicit Types (this : wrapper_base P) (s : machine world).

(** [destroy()] on an invalid wrapper: [EINVAL], nothing else happens. *)
Lemma destroy_invalid this s :
  m_valid this = false -> destroy (this, s) = (EINVAL, (this, s)).
Proof.
  intros Hv. unfold destroy, get_m_valid, gets. cbn. now rewrite Hv.
Qed.

(** [destroy()] on a valid wrapper, in terms of what [DestroyFn] does. *)
Lemma destroy_valid this s error out w :
  m_valid this = true ->
  DestroyFn (Some (m_object this)) (os s) = (error, out, w) ->
  destroy (this, s) =
    (error,
     (Wrapper_base (negb (lnot error)) (stored out (m_object this)),
      Machine w (calls s ++ [call_destroy]))).
Proof.
  intros Hv Hd. unfold destroy, get_m_valid, gets, call. cbn.
  rewrite Hv. cbn. now rewrite Hd.
Qed.

(** [!!error] is false exactly for the code 0. *)
Lemma not_not_zero (error : int) : negb (lnot error) = false <-> error = 0.
Proof.
  unfold lnot. destruct (Z.eqb_spec error 0); cbn; split; congruence.
Qed.

(** Counting a call in a log grown by one call. *)
Lemma times_snoc (c d : pthread_call) (log : list pthread_call) :
  times c (log ++ [d]) =
    (times c log + (if pthread_call_eq_dec d c then 1 else 0))%nat.
Proof.
  unfold times. rewrite count_occ_app. cbn.
  destruct (pthread_call_eq_dec d c); reflexivity.
Qed.

(** [detach()] step by step. *)
Lemma detach_eq this s :
  detach (this, s) = (m_object this, (Wrapper_base false (m_object this), s)).
Proof. reflexivity. Qed.

(** [attach(object)] in terms of the [destroy()] it starts with. *)
Lemma attach_eq object this s :
  attach object (this, s) =
    (tt, (Wrapper_base true object, machine_after (destroy (this, s)))).
Proof.
  unfold attach, machine_after, bind, State_Monad.
  destruct (destroy (this, s)) as [error [this' s']]. reflexivity.
Qed.

(** C1, as the code has it: on a valid wrapper [destroy()] calls [DestroyFn]
    once on the held object (the log grows by that one call and the library
    is left as [DestroyFn] left it) and returns its code; the wrapper is
    invalid afterwards exactly when that code is 0, and still valid when
    the code is not 0. *)
Theorem destroy_on_valid this s error out w :
  m_valid this = true ->
  DestroyFn (Some (m_object this)) (os s) = (error, out, w) ->
  value (destroy (this, s)) = error /\
  calls (machine_after (destroy (this, s))) = calls s ++ [call_destroy] /\
  times call_destroy (calls (machine_after (destroy (this, s)))) =
    S (times call_destroy (calls s)) /\
  os (machine_after (destroy (this, s))) = w /\
  (is_valid (object_after (destroy (this, s))) = false <-> error = 0) /\
  (is_valid (object_after (destroy (this, s))) = true <-> error <> 0).
Proof.
  intros Hv Hd. rewrite (destroy_valid this s Hv Hd).
  unfold value, machine_after, object_after, is_valid.
  cbn [fst snd calls os m_valid].
  repeat split; try (apply not_not_zero; assumption).
  - rewrite times_snoc. destruct (pthread_call_eq_dec call_destroy call_destroy);
      [lia | congruence].
  - intros Ht E. apply not_not_zero in E. congruence.
  - intros Hn. destruct (negb (lnot error)) eqn:E; [reflexivity|].
    apply not_not_zero in E. contradiction.
Qed.

(** C3, as the code has it: of two [destroy()] calls in a row on a valid
    wrapper, the first calls [DestroyFn] and returns its code, and leaves
    the wrapper invalid exactly when that code is 0.  When it is 0, the
    second call returns [EINVAL] and changes nothing: no call is added to
    the log.  When it is not 0 the wrapper is still valid, and the second
    call calls [DestroyFn] again. *)
Theorem destroy_twice this s error out w error2 out2 w2 :
  m_valid this = true ->
  DestroyFn (Some (m_object this)) (os s) = (error, out, w) ->
  DestroyFn (Some (stored out (m_object this))) w = (error2, out2, w2) ->
  value (destroy (this, s)) = error /\
  calls (machine_after (destroy (this, s))) = calls s ++ [call_destroy] /\
  (is_valid (object_after (destroy (this, s))) = false <-> error = 0) /\
  (error = 0 ->
   destroy (snd (destroy (this, s))) = (EINVAL, snd (destroy (this, s)))) /\
  (error <> 0 ->
   value (destroy (snd (destroy (this, s)))) = error2 /\
   calls (machine_after (destroy (snd (destroy (this, s))))) =
     calls s ++ [call_destroy; call_destroy]).
Proof.
  intros Hv Hd Hd2. rewrite (destroy_valid this s Hv Hd).
  unfold value, machine_after, object_after, is_valid. cbn [fst snd m_valid].
  repeat split; try (apply not_not_zero; assumption).
  - intros E. apply destroy_invalid. cbn. now apply not_not_zero.
  - erewrite destroy_valid; cbn; eauto.
    destruct (negb (lnot error)) eqn:E; [reflexivity|].
    apply not_not_zero in E. contradiction.
  - erewrite destroy_valid; cbn; eauto.
    + now rewrite <- app_assoc.
    + destruct (negb (lnot error)) eqn:E; [reflexivity|].
      apply not_not_zero in E. contradiction.
Qed.

(** C8: on a valid wrapper holding [v], [detach()] gives back [v] and
    [attach(v)] right after it leaves the wrapper and the machine exactly as
    they were before the [detach()]: valid, holding [v], and with no call
    added to the log in either step, so neither the init nor the destroy
    function of the library is called. *)
Theorem detach_then_attach this s v :
  m_valid this = true ->
  m_object this = v ->
  value (detach (this, s)) = v /\
  machine_after (detach (this, s)) = s /\
  attach v (snd (detach (this, s))) = (tt, (this, s)) /\
  is_valid (object_after (attach v (snd (detach (this, s))))) = true /\
  m_object (object_after (attach v (snd (detach (this, s))))) = v /\
  calls (machine_after (attach v (snd (detach (this, s))))) = calls s /\
  times call_init (calls (machine_after (attach v (snd (detach (this, s))))))
    = times call_init (calls s) /\
  times call_destroy (calls (machine_after (attach v (snd (detach (this, s))))))
    = times call_destroy (calls s).
Proof.
  intros Hv Ho. rewrite detach_eq. cbn [snd].
  assert (E : attach v (Wrapper_base (P := P) false (m_object this), s)
              = (tt, (this, s))).
  { rewrite attach_eq, destroy_invalid by reflexivity.
    unfold machine_after. cbn. destruct this as [b o]. cbn in *. now subst. }
  rewrite E. unfold value, machine_after, object_after, is_valid. cbn.
  repeat split; assumption.
Qed.

(** C9: both forms of [operator&] give the null pointer exactly on an invalid
    wrapper and the address of the held object exactly on a valid one;
    behind the address is [m_object]. *)
Theorem raw_handle_accessor this :
  (operator_addr_const this = null <-> is_valid this = false) /\
  (operator_addr_const this = addr_m_object <-> is_valid this = true) /\
  (operator_addr this = null <-> is_valid this = false) /\
  (operator_addr this = addr_m_object <-> is_valid this = true) /\
  deref (operator_addr_const this) this =
    (if is_valid this then Some (m_object this) else None) /\
  deref (operator_addr this) this =
    (if is_valid this then Some (m_object this) else None).
Proof.
  unfold operator_addr_const, operator_addr, is_valid.
  destruct (m_valid this); cbn; repeat split; congruence.
Qed.

(** C10: [detach()] asks nothing of the wrapper: on any wrapper, valid or
    not, it returns the stored object, leaves the wrapper invalid with the
    same stored object, and leaves the machine alone; on a wrapper that was
    only default-constructed it returns whatever the storage held. *)
Theorem detach_any this s indeterminate :
  value (detach (this, s)) = m_object this /\
  is_valid (object_after (detach (this, s))) = false /\
  m_object (object_after (detach (this, s))) = m_object this /\
  machine_after (detach (this, s)) = s /\
  value (detach (wrapper_base_ctor indeterminate, s)) = indeterminate.
Proof.
  rewrite !detach_eq. unfold value, object_after, machine_after, is_valid.
  cbn. repeat split.
Qed.

End WrapperBaseFacts.

(** * Properties of [wrapper] *)

Section WrapperFacts.
Context {world : Type} {errno : Errno} {P : Params world}.
Implicit Types (this : wrapper P) (s : machine world).

(** [init(attrs)] on an invalid wrapper: the [destroy()] it starts with
    calls nothing, then [InitFn] is called once. *)
Lemma init_on_invalid attrs this s error out w :
  m_valid this = false ->
  InitFn (Some (m_object this)) attrs (os s) = (error, out, w) ->
  init attrs (this, s) =
    (error,
     (Wrapper_base (lnot error) (stored out (m_object this)),
      Machine w (calls s ++ [call_init]))).
Proof.
  intros Hv Hi. unfold init, bind, State_Monad.
  rewrite (destroy_invalid this s Hv).
  unfold call, handle, deref. cbn [fst snd]. rewrite Hi. reflexivity.
Qed.

End WrapperFacts.

(** * Properties of [mutex] *)

Section MutexFacts.
Context {world : Type} {errno : Errno} {L : Pthread world}.
Implicit Types (this : mutex L) (s : machine world).

(** [pthread_mutex_f(&m_mutex)] in terms of what [f] does. *)
Lemma call_on_m_mutex_eq (f : primitive world pthread_mutex_t) c this s
    error out w :
  f (behind_m_mutex this) (os s) = (error, out, w) ->
  call_on_m_mutex f c (this, s) =
    (returned error,
     (Mutex (Wrapper_base (m_valid (m_mutex this))
               (stored out (m_object (m_mutex this)))),
      Machine w (calls s ++ [c]))).
Proof.
  intros Hf. unfold behind_m_mutex in Hf.
  unfold call_on_m_mutex, on_m_mutex, lift, call. cbn [fst snd].
  now rewrite Hf.
Qed.

(** [check_error] on the state it is given. *)
Lemma check_error_eq (error : int) (st : mutex L * machine world) :
  check_error error st =
    (if error =? 0 then returned tt else thrown (Fatal_error error), st).
Proof.
  unfold check_error, lnot. destruct (error =? 0); reflexivity.
Qed.

(** [lock()] in terms of what [pthread_mutex_lock] does. *)
Lemma lock_eq this s error out w :
  pthread_mutex_lock (behind_m_mutex this) (os s) = (error, out, w) ->
  lock (this, s) =
    (if error =? 0 then returned tt else thrown (Fatal_error error),
     (Mutex (Wrapper_base (m_valid (m_mutex this))
               (stored out (m_object (m_mutex this)))),
      Machine w (calls s ++ [call_lock]))).
Proof.
  intros Hf. unfold lock, bind, Throwing_Monad.
  rewrite (call_on_m_mutex_eq _ call_lock this s Hf).
  apply check_error_eq.
Qed.

(** [unlock()] in terms of what [pthread_mutex_unlock] does. *)
Lemma unlock_eq this s error out w :
  pthread_mutex_unlock (behind_m_mutex this) (os s) = (error, out, w) ->
  unlock (this, s) =
    (if error =? 0 then returned tt else thrown (Fatal_error error),
     (Mutex (Wrapper_base (m_valid (m_mutex this))
               (stored out (m_object (m_mutex this)))),
      Machine w (calls s ++ [call_unlock]))).
Proof.
  intros Hf. unfold unlock, bind, Throwing_Monad.
  rewrite (call_on_m_mutex_eq _ call_unlock this s Hf).
  apply check_error_eq.
Qed.

(** [trylock()] in terms of what [pthread_mutex_trylock] does. *)
Lemma trylock_eq this s error out w :
  pthread_mutex_trylock (behind_m_mutex this) (os s) = (error, out, w) ->
  trylock (this, s) =
    (if error =? EBUSY then returned false
     else if error =? 0 then returned true
     else thrown (Fatal_error error),
     (Mutex (Wrapper_base (m_valid (m_mutex this))
               (stored out (m_object (m_mutex this)))),
      Machine w (calls s ++ [call_trylock]))).
Proof.
  intros Hf. unfold trylock, bind, Throwing_Monad.
  rewrite (call_on_m_mutex_eq _ call_trylock this s Hf).
  destruct (error =? EBUSY); [reflexivity|].
  rewrite check_error_eq. destruct (error =? 0); reflexivity.
Qed.

(** [mutex(attrs)] in terms of what [pthread_mutex_init] does. *)
Lemma mutex_ctor_eq attrs indeterminate s error out w :
  pthread_mutex_init (Some indeterminate) attrs (os s) = (error, out, w) ->
  mutex_ctor attrs indeterminate s =
    (if error =? 0
     then returned (Mutex (Wrapper_base true (stored out indeterminate)))
     else thrown (Fatal_error error),
     Machine w (calls s ++ [call_init])).
Proof.
  intros Hi. unfold mutex_ctor, bind, Throwing_Monad, on_m_mutex, lift.
  cbn [fst snd m_mutex].
  rewrite (init_on_invalid (P := mutex_wrapper_params L) attrs
             (wrapper_ctor (P := mutex_wrapper_params L) indeterminate)
             s eq_refl Hi).
  rewrite check_error_eq. unfold lnot, wrapper_dtor, wrapper_base_dtor.
  cbn [m_object wrapper_ctor wrapper_base_ctor].
  destruct (error =? 0); reflexivity.
Qed.

(** No call on a mutex touches the validity flag of its wrapper. *)
Lemma mutex_step_keeps_valid o this s :
  m_valid (m_mutex (fst (mutex_step o (this, s)))) = m_valid (m_mutex this).
Proof.
  destruct o; cbn [mutex_step].
  - destruct (pthread_mutex_lock (behind_m_mutex this) (os s))
      as [[error out] w] eqn:Hf.
    now rewrite (lock_eq this s Hf).
  - destruct (pthread_mutex_trylock (behind_m_mutex this) (os s))
      as [[error out] w] eqn:Hf.
    now rewrite (trylock_eq this s Hf).
  - destruct (pthread_mutex_unlock (behind_m_mutex this) (os s))
      as [[error out] w] eqn:Hf.
    now rewrite (unlock_eq this s Hf).
  - reflexivity.
  - reflexivity.
Qed.

Lemma mutex_run_keeps_valid ops :
  forall st,
    m_valid (m_mutex (fst (mutex_run ops st))) = m_valid (m_mutex (fst st)).
Proof.
  induction ops as [|o ops IH]; intros st; cbn [mutex_run].
  - reflexivity.
  - rewrite IH. destruct st as [this s]. apply mutex_step_keeps_valid.
Qed.

(** A constructor that returns has seen the code 0 from
    [pthread_mutex_init]. *)
Lemma mutex_ctor_returned attrs indeterminate s this s' :
  mutex_ctor attrs indeterminate s = (returned this, s') ->
  fst (fst (pthread_mutex_init (Some indeterminate) attrs (os s))) = 0 /\
  m_valid (m_mutex this) = true.
Proof.
  destruct (pthread_mutex_init (Some indeterminate) attrs (os s))
    as [[error out] w] eqn:Hi.
  rewrite (mutex_ctor_eq attrs indeterminate s Hi). cbn [fst].
  destruct (Z.eqb_spec error 0) as [E|E]; intros H; inversion H; subst.
  split; reflexivity.
Qed.

(** C4: a mutex that a constructor returned has a valid wrapper, and the
    wrapper is still valid after any sequence of [lock()], [trylock()],
    [unlock()] and [handle()] calls, whether they return or throw; and a
    constructor only returns when [pthread_mutex_init] gave 0. *)
Theorem constructed_mutex_stays_valid this s ops :
  constructed this s ->
  is_valid (m_mutex this) = true /\
  is_valid (m_mutex (fst (mutex_run ops (this, s)))) = true /\
  (forall attrs indeterminate s0 this' s',
     mutex_ctor attrs indeterminate s0 = (returned this', s') ->
     fst (fst (pthread_mutex_init (Some indeterminate) attrs (os s0))) = 0).
Proof.
  intros Hc.
  assert (Hv : m_valid (m_mutex this) = true).
  { destruct Hc as [attrs indeterminate s this s' H | initializer s].
    - apply (mutex_ctor_returned _ _ _ H).
    - reflexivity. }
  unfold is_valid. rewrite mutex_run_keeps_valid. cbn [fst].
  repeat split; try assumption.
  intros attrs indeterminate s0 this' s' H.
  apply (mutex_ctor_returned _ _ _ H).
Qed.

(** C5: [trylock()] calls [pthread_mutex_trylock] once; on [EBUSY] it
    returns false, on any other code that is not 0 it throws the fatal error
    with that code, on 0 it returns true. *)
Theorem trylock_outcome this s error out w :
  EBUSY <> 0 ->
  pthread_mutex_trylock (behind_m_mutex this) (os s) = (error, out, w) ->
  calls (machine_after (trylock (this, s))) = calls s ++ [call_trylock] /\
  os (machine_after (trylock (this, s))) = w /\
  (error = EBUSY -> value (trylock (this, s)) = returned false) /\
  (error <> EBUSY -> error <> 0 ->
   value (trylock (this, s)) = thrown (Fatal_error error) /\
   error_code (Fatal_error error) = error) /\
  (error = 0 -> value (trylock (this, s)) = returned true).
Proof.
  intros Hbusy Hf. rewrite (trylock_eq this s Hf).
  unfold value, machine_after. cbn [fst snd calls os].
  repeat split.
  - intros E. subst. now rewrite Z.eqb_refl.
  - destruct (Z.eqb_spec error EBUSY); [contradiction|].
    destruct (Z.eqb_spec error 0); [contradiction|reflexivity].
  - intros E. subst. destruct (Z.eqb_spec 0 EBUSY); [congruence|reflexivity].
Qed.

(** C6: when [pthread_mutex_init] gives a code that is not 0, constructing
    the mutex throws the fatal error with exactly that code and yields no
    mutex; when it gives 0, the constructor returns a mutex whose wrapper is
    valid.  Either way [pthread_mutex_init] is the one call made. *)
Theorem mutex_ctor_outcome attrs indeterminate s error out w :
  pthread_mutex_init (Some indeterminate) attrs (os s) = (error, out, w) ->
  calls (snd (mutex_ctor attrs indeterminate s)) = calls s ++ [call_init] /\
  (error <> 0 ->
   value (mutex_ctor attrs indeterminate s) = thrown (Fatal_error error) /\
   error_code (Fatal_error error) = error /\
   forall this, value (mutex_ctor attrs indeterminate s) <> returned this) /\
  (error = 0 ->
   exists this,
     value (mutex_ctor attrs indeterminate s) = returned this /\
     is_valid (m_mutex this) = true).
Proof.
  intros Hi. rewrite (mutex_ctor_eq attrs indeterminate s Hi).
  unfold value. cbn [fst snd calls].
  repeat split.
  - destruct (Z.eqb_spec error 0); [contradiction|reflexivity].
  - intros this. destruct (Z.eqb_spec error 0); [contradiction|discriminate].
  - intros E. subst. cbn. eexists. split; reflexivity.
Qed.

(** C7: [lock()] and [unlock()] each make their library call once, return
    exactly when the call gave 0, and throw the fatal error with the
    call's own code when it gave anything else. *)
Theorem lock_unlock_outcome this s error out w error' out' w' :
  pthread_mutex_lock (behind_m_mutex this) (os s) = (error, out, w) ->
  pthread_mutex_unlock (behind_m_mutex this) (os s) = (error', out', w') ->
  (calls (machine_after (lock (this, s))) = calls s ++ [call_lock] /\
   os (machine_after (lock (this, s))) = w /\
   (value (lock (this, s)) = returned tt <-> error = 0) /\
   (error <> 0 ->
    value (lock (this, s)) = thrown (Fatal_error error) /\
    error_code (Fatal_error error) = error)) /\
  (calls (machine_after (unlock (this, s))) = calls s ++ [call_unlock] /\
   os (machine_after (unlock (this, s))) = w' /\
   (value (unlock (this, s)) = returned tt <-> error' = 0) /\
   (error' <> 0 ->
    value (unlock (this, s)) = thrown (Fatal_error error') /\
    error_code (Fatal_error error') = error')).
Proof.
  intros Hl Hu. rewrite (lock_eq this s Hl), (unlock_eq this s Hu).
  unfold value, machine_after. cbn [fst snd calls os].
  destruct (Z.eqb_spec error 0), (Z.eqb_spec error' 0);
    repeat split; intros; try reflexivity; try assumption;
    try contradiction; try discriminate.
Qed.

End MutexFacts.

(** * The properties on the simulated library *)

(** [destroy_on_valid] applies: a valid wrapper whose destroy call the
    library refuses with code 16. *)
Lemma destroy_on_valid_witness :
  m_valid Sim.held = true /\
  value (Sim.destroy (Sim.held, Sim.boot [16])) = 16 /\
  calls (machine_after (Sim.destroy (Sim.held, Sim.boot [16])))
    = [call_destroy].
Proof.
  pose proof (@destroy_on_valid _ Sim.errno Sim.base Sim.held (Sim.boot [16])
                16 (Some 7) [] eq_refl eq_refl) as H.
  split; [reflexivity|]. split; [apply H|apply H].
Defined.

(** C1 as stated fails: a valid wrapper whose destroy call returns 16 is
    still valid after [destroy()]. *)
Lemma destroy_error_leaves_wrapper_valid :
  m_valid Sim.held = true /\
  value (Sim.destroy (Sim.held, Sim.boot [16])) = 16 /\
  is_valid (object_after (Sim.destroy (Sim.held, Sim.boot [16]))) <> false.
Proof.
  repeat split. vm_compute. discriminate.
Qed.

(** C2 on the code: the lifetime of a valid wrapper ends without any call
    to the library, whereas the destructor of [mutex] does call destroy. *)
Lemma wrapper_lifetime_end_calls_nothing :
  is_valid Sim.held = true /\
  calls (wrapper_base_dtor Sim.held (Sim.boot [])) = [] /\
  times call_destroy (calls (wrapper_base_dtor Sim.held (Sim.boot []))) = 0%nat /\
  calls (Sim.delete_mutex Sim.mtx (Sim.boot [])) = [call_destroy].
Proof.
  split; [reflexivity|]. split; [reflexivity|]. split; reflexivity.
Qed.

(** [destroy_twice] applies: the first destroy call succeeds, the second
    [destroy()] gives [EINVAL] (22) and changes nothing. *)
Lemma destroy_twice_witness :
  m_valid Sim.held = true /\
  value (Sim.destroy (Sim.held, Sim.boot [0; 5])) = 0 /\
  Sim.destroy (snd (Sim.destroy (Sim.held, Sim.boot [0; 5])))
    = (22, snd (Sim.destroy (Sim.held, Sim.boot [0; 5]))).
Proof.
  destruct (@destroy_twice _ Sim.errno Sim.base Sim.held (Sim.boot [0; 5])
              0 (Some 7) [5] 5 (Some 7) [] eq_refl eq_refl eq_refl)
    as (Hvalue & _ & _ & Hzero & _).
  split; [reflexivity|]. split; [exact Hvalue|exact (Hzero eq_refl)].
Defined.

(** C3 as stated fails: when the first destroy call returns 16 the wrapper
    stays valid, and the second [destroy()] calls the library again and
    returns its code instead of [EINVAL] (22). *)
Lemma second_destroy_after_error_calls_again :
  m_valid Sim.held = true /\
  value (Sim.destroy (Sim.held, Sim.boot [16; 0])) = 16 /\
  value (Sim.destroy (snd (Sim.destroy (Sim.held, Sim.boot [16; 0])))) <> 22 /\
  times call_destroy
    (calls (machine_after
              (Sim.destroy (snd (Sim.destroy (Sim.held, Sim.boot [16; 0]))))))
    = 2%nat.
Proof.
  split; [reflexivity|]. split; [reflexivity|]. split.
  - vm_compute. discriminate.
  - reflexivity.
Qed.

(** [constructed_mutex_stays_valid] applies: a mutex constructed with
    default attributes, then locked (refused with 35), try-locked (busy),
    unlocked and asked for its handle. *)
Lemma constructed_mutex_stays_valid_witness :
  Sim.new_mutex None 0 (Sim.boot [0; 35; 16])
    = (returned Sim.made, Machine [35; 16] [call_init]) /\
  is_valid
    (m_mutex
       (fst (Sim.run [op_lock; op_trylock; op_unlock; op_handle]
               (Sim.made, Machine [35; 16] [call_init])))) = true.
Proof.
  assert (Hnew : Sim.new_mutex None 0 (Sim.boot [0; 35; 16])
                 = (returned Sim.made, Machine [35; 16] [call_init]))
    by reflexivity.
  split; [exact Hnew|].
  apply (@constructed_mutex_stays_valid _ Sim.errno Sim.lib Sim.made
           (Machine [35; 16] [call_init])
           [op_lock; op_trylock; op_unlock; op_handle]
           (@constructed_attrs _ Sim.errno Sim.lib None 0
              (Sim.boot [0; 35; 16]) Sim.made _ Hnew)).
Defined.

(** [trylock_outcome] applies: the library answers 16 ([EBUSY]). *)
Lemma trylock_outcome_witness :
  16 <> 0 /\
  value (Sim.trylock (Sim.mtx, Sim.boot [16])) = returned false /\
  calls (machine_after (Sim.trylock (Sim.mtx, Sim.boot [16])))
    = [call_trylock].
Proof.
  assert (Hbusy : @EBUSY Sim.errno <> 0) by discriminate.
  destruct (@trylock_outcome _ Sim.errno Sim.lib Sim.mtx (Sim.boot [16])
              16 (Some 7) [] Hbusy eq_refl)
    as (Hcalls & _ & Hfalse & _).
  split; [exact Hbusy|]. split; [exact (Hfalse eq_refl)|exact Hcalls].
Defined.

(** [mutex_ctor_outcome] applies: the library refuses the init with 12. *)
Lemma mutex_ctor_outcome_witness :
  value (Sim.new_mutex None 0 (Sim.boot [12])) = thrown (Fatal_error 12) /\
  calls (snd (Sim.new_mutex None 0 (Sim.boot [12]))) = [call_init].
Proof.
  destruct (@mutex_ctor_outcome _ Sim.errno Sim.lib None 0 (Sim.boot [12])
              12 (Some 0) [] eq_refl)
    as (Hcalls & Hthrow & _).
  split; [|exact Hcalls].
  apply Hthrow. discriminate.
Defined.

(** [lock_unlock_outcome] applies: the library refuses either call with
    35. *)
Lemma lock_unlock_outcome_witness :
  value (Sim.lock (Sim.mtx, Sim.boot [35])) = thrown (Fatal_error 35) /\
  value (Sim.unlock (Sim.mtx, Sim.boot [35])) = thrown (Fatal_error 35).
Proof.
  destruct (@lock_unlock_outcome _ Sim.lib Sim.mtx (Sim.boot [35])
              35 (Some 7) [] 35 (Some 7) [] eq_refl eq_refl)
    as ((_ & _ & _ & Hlock) & (_ & _ & _ & Hunlock)).
  split.
  - apply Hlock. discriminate.
  - apply Hunlock. discriminate.
Defined.

(** [detach_then_attach] applies: the library would answer 16 to any call,
    and is not asked. *)
Lemma detach_then_attach_witness :
  m_valid Sim.held = true /\
  Sim.attach 7 (snd (Sim.detach (Sim.held, Sim.boot [16])))
    = (tt, (Sim.held, Sim.boot [16])).
Proof.
  split; [reflexivity|].
  apply (@detach_then_attach _ Sim.errno Sim.base Sim.held (Sim.boot [16]) 7
           eq_refl eq_refl).
Defined.

(** * Further properties of the wrappers *)

Section WrapperBaseMore.
Context {world : Type} {errno : Errno} {P : BaseParams world}.
Implicit Types (this : wrapper_base P) (s : machine world).

(** The log after [destroy()]: one destroy call more on a valid wrapper,
    nothing more on an invalid one. *)
Lemma destroy_calls this s :
  calls (machine_after (destroy (this, s))) =
    calls s ++ (if m_valid this then [call_destroy] else []).
Proof.
  destruct (m_valid this) eqn:Hv.
  - destruct (DestroyFn (Some (m_object this)) (os s)) as [[error out] w]
      eqn:Hd.
    rewrite (destroy_valid this s Hv Hd). reflexivity.
  - rewrite (destroy_invalid this s Hv). unfold machine_after. cbn.
    now rewrite app_nil_r.
Qed.

(** Counting in a log grown by the calls of a [destroy()]. *)
Lemma times_destroy_part (c : pthread_call) (log : list pthread_call)
    (valid : bool) :
  times c (log ++ (if valid then [call_destroy] else [])) =
    (times c log +
     (if valid then if pthread_call_eq_dec call_destroy c then 1 else 0
      else 0))%nat.
Proof.
  destruct valid.
  - apply times_snoc.
  - rewrite app_nil_r. lia.
Qed.


(** X11: the code [destroy()] returns tells what happened to the wrapper:
    it is 0 exactly when the wrapper was valid and is invalid now, and
    whenever it is not 0 the wrapper's validity is what it was before the
    call. *)
Theorem destroy_code_tells_validity this s :
  EINVAL <> 0 ->
  (value (destroy (this, s)) = 0 <->
   is_valid this = true /\
   is_valid (object_after (destroy (this, s))) = false) /\
  (value (destroy (this, s)) <> 0 ->
   is_valid (object_after (destroy (this, s))) = is_valid this).
Proof.
  intros Hinval. unfold is_valid.
  destruct (m_valid this) eqn:Hv.
  - destruct (DestroyFn (Some (m_object this)) (os s)) as [[error out] w]
      eqn:Hd.
    rewrite (destroy_valid this s Hv Hd).
    unfold value, object_after. cbn [fst snd m_valid].
    pose proof (not_not_zero error) as Hz.
    split; [split|].
    + intros E. split; [reflexivity|now apply Hz].
    + intros [_ E]. now apply Hz.
    + intros Hn. destruct (negb (lnot error)); [reflexivity|].
      exfalso. apply Hn. now apply Hz.
  - rewrite (destroy_invalid this s Hv).
    unfold value, object_after. cbn [fst snd].
    split; [split|].
    + intros E. contradiction.
    + intros [E _]. discriminate.
    + intros _. exact Hv.
Qed.

End WrapperBaseMore.

Section WrapperMore.
Context {world : Type} {errno : Errno} {P : Params world}.
Implicit Types (this : wrapper P) (s : machine world).

(** [init(attrs)] in terms of the [destroy()] it starts with and of what
    [InitFn] does next. *)
Lemma init_eq attrs this s error out w :
  InitFn (Some (m_object (object_after (destroy (this, s))))) attrs
         (os (machine_after (destroy (this, s)))) = (error, out, w) ->
  init attrs (this, s) =
    (error,
     (Wrapper_base (lnot error)
        (stored out (m_object (object_after (destroy (this, s))))),
      Machine w (calls (machine_after (destroy (this, s))) ++ [call_init]))).
Proof.
  unfold init, bind, State_Monad, object_after, machine_after.
  destruct (destroy (this, s)) as [e [this1 s1]]. cbn [fst snd].
  intros Hi. unfold call, handle, deref. cbn [fst snd]. rewrite Hi.
  reflexivity.
Qed.

(** X1: [init(attrs)] on any wrapper first runs [destroy()], then calls
    [InitFn] once on the stored object, whatever that [destroy()] returned,
    and returns the code of [InitFn]; the wrapper is valid afterwards
    exactly when that code is 0.  The destroy function is called once when
    the wrapper was valid and not at all when it was not. *)
Theorem init_outcome attrs this s error out w :
  InitFn (Some (m_object (object_after (destroy (this, s))))) attrs
         (os (machine_after (destroy (this, s)))) = (error, out, w) ->
  value (init attrs (this, s)) = error /\
  (is_valid (object_after (init attrs (this, s))) = true <-> error = 0) /\
  m_object (object_after (init attrs (this, s))) =
    stored out (m_object (object_after (destroy (this, s)))) /\
  os (machine_after (init attrs (this, s))) = w /\
  calls (machine_after (init attrs (this, s))) =
    calls s ++ (if m_valid this then [call_destroy] else []) ++ [call_init] /\
  times call_init (calls (machine_after (init attrs (this, s)))) =
    S (times call_init (calls s)) /\
  times call_destroy (calls (machine_after (init attrs (this, s)))) =
    (times call_destroy (calls s) + (if m_valid this then 1 else 0))%nat.
Proof.
  intros Hi. rewrite (init_eq attrs this s Hi).
  unfold value, is_valid.
  change (object_after (error, (?a, ?b))) with a.
  change (machine_after (error, (?a, ?b))) with b.
  cbn [m_valid m_object os calls fst].
  rewrite (destroy_calls (P := base_params) this s), !times_snoc,
    !times_destroy_part, <- app_assoc.
  repeat split.
  - unfold lnot. apply Z.eqb_eq.
  - unfold lnot. apply Z.eqb_eq.
  - destruct (m_valid this);
      destruct (pthread_call_eq_dec call_destroy call_init),
               (pthread_call_eq_dec call_init call_init);
      try discriminate; try contradiction; lia.
  - destruct (m_valid this);
      destruct (pthread_call_eq_dec call_destroy call_destroy),
               (pthread_call_eq_dec call_init call_destroy);
      try discriminate; try contradiction; lia.
Qed.

(** X3: an invalid wrapper never has the destroy function called:
    [destroy()] returns [EINVAL] and changes nothing, [attach] and [detach]
    leave the machine alone, and [init] makes the init call only. *)
Theorem invalid_wrapper_never_destroys attrs object this s :
  m_valid this = false ->
  destroy (this, s) = (EINVAL, (this, s)) /\
  machine_after (attach object (this, s)) = s /\
  machine_after (detach (this, s)) = s /\
  calls (machine_after (init attrs (this, s))) = calls s ++ [call_init] /\
  times call_destroy (calls (machine_after (init attrs (this, s)))) =
    times call_destroy (calls s).
Proof.
  intros Hv.
  assert (Hd : destroy (this, s) = (EINVAL, (this, s)))
    by exact (destroy_invalid this s Hv).
  destruct (InitFn (Some (m_object this)) attrs (os s)) as [[error out] w]
    eqn:Hi.
  rewrite (init_on_invalid attrs this s Hv Hi).
  assert (Ht : detach (this, s)
               = (m_object this, (Wrapper_base false (m_object this), s)))
    by reflexivity.
  rewrite (attach_eq (P := base_params) object this s), Ht, Hd.
  unfold machine_after.
  cbn [fst snd calls].
  repeat split.
  - now rewrite (destroy_invalid (P := base_params) this s Hv).
  - rewrite times_snoc.
    destruct (pthread_call_eq_dec call_init call_destroy); [discriminate|lia].
Qed.

End WrapperMore.

(** * Further properties of [mutex] *)

(** Counting in a log made of two parts. *)
Lemma times_app (c : pthread_call) (l1 l2 : list pthread_call) :
  times c (l1 ++ l2) = (times c l1 + times c l2)%nat.
Proof. unfold times. apply count_occ_app. Qed.

(** The calls on a mutex never include an init or a destroy call. *)
Lemma times_op_calls (ops : list mutex_op) :
  times call_init (flat_map op_calls ops) = 0%nat /\
  times call_destroy (flat_map op_calls ops) = 0%nat.
Proof.
  induction ops as [|o ops [IHi IHd]]; [split; reflexivity|].
  cbn [flat_map]. rewrite !times_app, IHi, IHd.
  destruct o; split; reflexivity.
Qed.

Section MutexMore.
Context {world : Type} {errno : Errno} {L : Pthread world}.
Implicit Types (this : mutex L) (s : machine world).

(** One call on a mutex adds its own library calls to the log, whether it
    returns or throws. *)
Lemma mutex_step_calls o this s :
  calls (snd (mutex_step o (this, s))) = calls s ++ op_calls o.
Proof.
  destruct o; cbn [mutex_step op_calls].
  - destruct (pthread_mutex_lock (behind_m_mutex this) (os s))
      as [[error out] w] eqn:Hf.
    now rewrite (lock_eq this s Hf).
  - destruct (pthread_mutex_trylock (behind_m_mutex this) (os s))
      as [[error out] w] eqn:Hf.
    now rewrite (trylock_eq this s Hf).
  - destruct (pthread_mutex_unlock (behind_m_mutex this) (os s))
      as [[error out] w] eqn:Hf.
    now rewrite (unlock_eq this s Hf).
  - cbn. now rewrite app_nil_r.
  - cbn. now rewrite app_nil_r.
Qed.

Lemma mutex_run_log ops :
  forall st,
    calls (snd (mutex_run ops st)) = calls (snd st) ++ flat_map op_calls ops.
Proof.
  induction ops as [|o ops IH]; intros st; cbn [mutex_run flat_map].
  - now rewrite app_nil_r.
  - rewrite IH. destruct st as [this s]. rewrite mutex_step_calls.
    cbn [snd]. now rewrite <- app_assoc.
Qed.

(** A constructed mutex has a valid wrapper. *)
Lemma constructed_valid this s :
  constructed this s -> m_valid (m_mutex this) = true.
Proof.
  intros Hc. destruct Hc as [attrs indeterminate s this s' H | initializer s].
  - apply (mutex_ctor_returned _ _ _ H).
  - reflexivity.
Qed.

(** [~mutex()] on a mutex whose wrapper is valid. *)
Lemma mutex_dtor_eq this s error out w :
  m_valid (m_mutex this) = true ->
  pthread_mutex_destroy (Some (m_object (m_mutex this))) (os s)
    = (error, out, w) ->
  mutex_dtor this s = Machine w (calls s ++ [call_destroy]).
Proof.
  intros Hv Hd. unfold mutex_dtor.
  rewrite (destroy_valid (P := @base_params _ (mutex_wrapper_params L))
             (m_mutex this) s Hv Hd).
  reflexivity.
Qed.

(** X4: whatever calls were made on a constructed mutex, its destructor
    makes exactly one library call, the destroy call; over the whole time
    from construction the destroy function is called that once and the
    init function not at all. *)
Theorem mutex_dtor_destroys_once this s ops :
  constructed this s ->
  calls (mutex_dtor (fst (mutex_run ops (this, s)))
                    (snd (mutex_run ops (this, s)))) =
    calls s ++ flat_map op_calls ops ++ [call_destroy] /\
  times call_destroy
    (calls (mutex_dtor (fst (mutex_run ops (this, s)))
                       (snd (mutex_run ops (this, s))))) =
    S (times call_destroy (calls s)) /\
  times call_init
    (calls (mutex_dtor (fst (mutex_run ops (this, s)))
                       (snd (mutex_run ops (this, s))))) =
    times call_init (calls s).
Proof.
  intros Hc.
  assert (Hv : m_valid (m_mutex (fst (mutex_run ops (this, s)))) = true).
  { rewrite mutex_run_keeps_valid. exact (constructed_valid Hc). }
  destruct (pthread_mutex_destroy
              (Some (m_object (m_mutex (fst (mutex_run ops (this, s))))))
              (os (snd (mutex_run ops (this, s)))))
    as [[error out] w] eqn:Hd.
  rewrite (mutex_dtor_eq _ _ Hv Hd). cbn [calls].
  rewrite mutex_run_log. cbn [snd].
  destruct (times_op_calls ops) as [Hi Hdes].
  rewrite !times_app, Hi, Hdes, <- app_assoc.
  repeat split.
  - cbn. lia.
  - cbn. lia.
Qed.

(** X6: the log after a sequence of calls on a mutex is the log before it
    followed by one library call for every [lock()], [trylock()] and
    [unlock()] of the sequence, in order, and nothing for [handle()]: a call
    that throws is logged like one that returns and stops nothing after it,
    and no init or destroy call is ever added. *)
Theorem mutex_calls_follow_ops this s ops :
  calls (snd (mutex_run ops (this, s))) =
    calls s ++ flat_map op_calls ops /\
  length (calls (snd (mutex_run ops (this, s)))) =
    (length (calls s) + length (flat_map op_calls ops))%nat /\
  times call_init (calls (snd (mutex_run ops (this, s)))) =
    times call_init (calls s) /\
  times call_destroy (calls (snd (mutex_run ops (this, s)))) =
    times call_destroy (calls s).
Proof.
  rewrite mutex_run_log. cbn [snd].
  destruct (times_op_calls ops) as [Hi Hdes].
  rewrite length_app, !times_app, Hi, Hdes.
  repeat split; lia.
Qed.

(** X5: on a constructed mutex, after any sequence of calls, both forms of
    [handle()] return the address of the held object, never the null
    pointer, and change nothing; and the library functions are given that
    object, not a null pointer. *)
Theorem constructed_mutex_handle_not_null this s ops :
  constructed this s ->
  mutex_handle (mutex_run ops (this, s)) =
    (returned addr_m_object, mutex_run ops (this, s)) /\
  mutex_handle_const (mutex_run ops (this, s)) =
    (returned addr_m_object, mutex_run ops (this, s)) /\
  behind_m_mutex (fst (mutex_run ops (this, s))) =
    Some (m_object (m_mutex (fst (mutex_run ops (this, s))))).
Proof.
  intros Hc.
  assert (Hv : m_valid (m_mutex (fst (mutex_run ops (this, s)))) = true).
  { rewrite mutex_run_keeps_valid. exact (constructed_valid Hc). }
  unfold mutex_handle, mutex_handle_const, lift, gets, behind_m_mutex,
    operator_addr, operator_addr_const.
  rewrite Hv. repeat split.
Qed.

End MutexMore.

(** * Properties of the guards *)

Section GuardFacts.
Context {world : Type} {errno : Errno} {L : Pthread world}.
Implicit Types (this : wrapper_base (@base_params _ (mutex_wrapper_params L)))
               (m : mutex L) (s : machine world).

(** The constructor from a wrapper, in terms of what [pthread_mutex_lock]
    does behind the pointer [operator&] gives. *)
Lemma mutex_wrapper_guard_ctor_eq this s error out w :
  pthread_mutex_lock (deref (operator_addr this) this) (os s)
    = (error, out, w) ->
  mutex_wrapper_guard_ctor (this, s) =
    (Mutex_wrapper_guard (operator_addr this),
     (Wrapper_base (m_valid this) (stored out (m_object this)),
      Machine w (calls s ++ [call_lock]))).
Proof.
  intros Hf.
  unfold mutex_wrapper_guard_ctor, bind, State_Monad, gets, call.
  cbn [fst snd]. now rewrite Hf.
Qed.

(** The destructor, in terms of what [pthread_mutex_unlock] does behind the
    pointer the guard holds. *)
Lemma mutex_wrapper_guard_dtor_eq (g : mutex_wrapper_guard) this s
    error out w :
  pthread_mutex_unlock (deref (guard_m_mutex g) this) (os s)
    = (error, out, w) ->
  mutex_wrapper_guard_dtor g (this, s) =
    (tt,
     (Wrapper_base (m_valid this) (stored out (m_object this)),
      Machine w (calls s ++ [call_unlock]))).
Proof.
  intros Hf.
  unfold mutex_wrapper_guard_dtor, bind, State_Monad, call.
  cbn [fst snd]. now rewrite Hf.
Qed.

(** X7: a [mutex_wrapper_guard] built from a wrapper holds what the
    wrapper's [operator&] gives at that moment (null for an invalid
    wrapper), and is the guard built from that raw pointer; over its
    lifetime exactly one lock call and then one unlock call are made,
    whatever codes they return, and the wrapper's validity is untouched. *)
Theorem mutex_wrapper_guard_lifetime this s :
  value (mutex_wrapper_guard_ctor (this, s)) =
    Mutex_wrapper_guard (operator_addr this) /\
  mutex_wrapper_guard_ctor (this, s) =
    mutex_wrapper_guard_ctor_raw (operator_addr this) (this, s) /\
  calls (machine_after (mutex_wrapper_guard_block (this, s))) =
    calls s ++ [call_lock; call_unlock] /\
  is_valid (object_after (mutex_wrapper_guard_block (this, s))) =
    is_valid this.
Proof.
  destruct (pthread_mutex_lock (deref (operator_addr this) this) (os s))
    as [[error out] w] eqn:Hl.
  pose proof (mutex_wrapper_guard_ctor_eq this s Hl) as Hc.
  split; [now rewrite Hc|]. split; [reflexivity|].
  unfold mutex_wrapper_guard_block, bind, State_Monad. rewrite Hc.
  match goal with
  | |- context [mutex_wrapper_guard_dtor ?g (?t, ?m)] =>
      destruct (pthread_mutex_unlock (deref (guard_m_mutex g) t) (os m))
        as [[error' out'] w'] eqn:Hu;
      rewrite (mutex_wrapper_guard_dtor_eq g t m Hu)
  end.
  unfold machine_after, object_after, is_valid. cbn [fst snd calls m_valid].
  split; [now rewrite <- app_assoc|reflexivity].
Qed.

(** X8: a guard on an invalid wrapper holds the null pointer: the lock call
    and the unlock call are both made on a null pointer, and the library is
    left as those two calls leave it. *)
Theorem mutex_wrapper_guard_on_invalid this s error out w error' out' w' :
  m_valid this = false ->
  pthread_mutex_lock None (os s) = (error, out, w) ->
  pthread_mutex_unlock None w = (error', out', w') ->
  guard_m_mutex (value (mutex_wrapper_guard_ctor (this, s))) = null /\
  os (machine_after (mutex_wrapper_guard_block (this, s))) = w' /\
  calls (machine_after (mutex_wrapper_guard_block (this, s))) =
    calls s ++ [call_lock; call_unlock] /\
  is_valid (object_after (mutex_wrapper_guard_block (this, s))) = false.
Proof.
  intros Hv Hl Hu.
  assert (Hp : operator_addr this = null)
    by (unfold operator_addr; now rewrite Hv).
  assert (Hl' : pthread_mutex_lock (deref (operator_addr this) this) (os s)
                = (error, out, w)) by (now rewrite Hp).
  pose proof (mutex_wrapper_guard_ctor_eq this s Hl') as Hc.
  unfold mutex_wrapper_guard_block, bind, State_Monad. rewrite Hc, Hp.
  erewrite mutex_wrapper_guard_dtor_eq by exact Hu.
  unfold value, machine_after, object_after, is_valid.
  cbn [fst snd calls os m_valid guard_m_mutex].
  repeat split; [now rewrite <- app_assoc|assumption].
Qed.

(** X9: when a valid wrapper gives its object away with [detach()] inside a
    guarded block, the guard still unlocks that object at the end of the
    block: the unlock call is made on the object as the lock call left it,
    not on a null pointer, although the wrapper is invalid by then; the
    destroy function is not called. *)
Theorem mutex_wrapper_guard_survives_detach this s error out w
    error' out' w' :
  m_valid this = true ->
  pthread_mutex_lock (Some (m_object this)) (os s) = (error, out, w) ->
  pthread_mutex_unlock (Some (stored out (m_object this))) w
    = (error', out', w') ->
  is_valid (object_after (mutex_wrapper_guard_block_detach (this, s)))
    = false /\
  operator_addr (object_after (mutex_wrapper_guard_block_detach (this, s)))
    = null /\
  os (machine_after (mutex_wrapper_guard_block_detach (this, s))) = w' /\
  calls (machine_after (mutex_wrapper_guard_block_detach (this, s))) =
    calls s ++ [call_lock; call_unlock] /\
  times call_destroy
    (calls (machine_after (mutex_wrapper_guard_block_detach (this, s)))) =
    times call_destroy (calls s).
Proof.
  intros Hv Hl Hu.
  assert (Hp : operator_addr this = addr_m_object)
    by (unfold operator_addr; now rewrite Hv).
  assert (Hl' : pthread_mutex_lock (deref (operator_addr this) this) (os s)
                = (error, out, w)) by (now rewrite Hp).
  pose proof (mutex_wrapper_guard_ctor_eq this s Hl') as Hc.
  unfold mutex_wrapper_guard_block_detach, bind, State_Monad.
  rewrite Hc, Hp.
  rewrite detach_eq. cbn [m_object].
  erewrite mutex_wrapper_guard_dtor_eq by exact Hu.
  unfold machine_after, object_after, is_valid, operator_addr.
  cbn [fst snd calls os m_valid].
  rewrite <- app_assoc. cbn [app]. rewrite times_app.
  repeat split. cbn. lia.
Qed.

(** [mutex_guard(m)] in terms of what [pthread_mutex_lock] does. *)
Lemma mutex_guard_ctor_eq m s error out w :
  pthread_mutex_lock (behind_m_mutex m) (os s) = (error, out, w) ->
  mutex_guard_ctor (m, s) =
    (if error =? 0 then returned Mutex_guard
     else thrown (Fatal_error error),
     (Mutex (Wrapper_base (m_valid (m_mutex m))
               (stored out (m_object (m_mutex m)))),
      Machine w (calls s ++ [call_lock]))).
Proof.
  intros Hf. unfold mutex_guard_ctor, bind, Throwing_Monad.
  rewrite (lock_eq m s Hf). destruct (error =? 0); reflexivity.
Qed.

(** X10: a [mutex_guard] whose lock call is refused is never built: the
    constructor throws the fatal error with the code of the lock call and no
    unlock call is made.  When the lock call gives 0, the unlock call is
    made once at the end of the guard's lifetime, on the object as the lock
    call left it, and the block ends normally exactly when the unlock call
    gives 0. *)
Theorem mutex_guard_lifetime m s error out w error' out' w' :
  pthread_mutex_lock (behind_m_mutex m) (os s) = (error, out, w) ->
  pthread_mutex_unlock
    (behind_m_mutex
       (Mutex (Wrapper_base (m_valid (m_mutex m))
                 (stored out (m_object (m_mutex m))))))
    w = (error', out', w') ->
  (error <> 0 ->
   value (mutex_guard_ctor (m, s)) = thrown (Fatal_error error) /\
   value (mutex_guard_block (m, s)) = thrown (Fatal_error error) /\
   calls (machine_after (mutex_guard_block (m, s))) =
     calls s ++ [call_lock] /\
   os (machine_after (mutex_guard_block (m, s))) = w) /\
  (error = 0 ->
   value (mutex_guard_ctor (m, s)) = returned Mutex_guard /\
   calls (machine_after (mutex_guard_block (m, s))) =
     calls s ++ [call_lock; call_unlock] /\
   os (machine_after (mutex_guard_block (m, s))) = w' /\
   (value (mutex_guard_block (m, s)) = returned tt <-> error' = 0)).
Proof.
  intros Hl Hu.
  pose proof (mutex_guard_ctor_eq m s Hl) as Hc.
  unfold mutex_guard_block, bind, Throwing_Monad. rewrite Hc.
  unfold value, machine_after.
  split; intros E.
  - destruct (Z.eqb_spec error 0); [contradiction|].
    cbn [fst snd calls os]. repeat split.
  - subst error. cbn [Z.eqb fst snd].
    unfold mutex_guard_dtor. erewrite unlock_eq by exact Hu.
    cbn [fst snd calls os]. rewrite <- app_assoc.
    repeat split.
    + destruct (Z.eqb_spec error' 0); [trivial|discriminate].
    + intros E'. subst error'. reflexivity.
Qed.

End GuardFacts.

(** * The further properties on the simulated library *)

(** [init_outcome] applies: a valid wrapper whose destroy call is refused
    with 16 and whose init call is accepted. *)
Lemma init_outcome_witness :
  value (Sim.init None (Sim.held, Sim.boot [16; 0])) = 0 /\
  is_valid (object_after (Sim.init None (Sim.held, Sim.boot [16; 0])))
    = true /\
  calls (machine_after (Sim.init None (Sim.held, Sim.boot [16; 0])))
    = [call_destroy; call_init].
Proof.
  destruct (@init_outcome _ Sim.errno Sim.params None Sim.held
              (Sim.boot [16; 0]) 0 (Some 7) [] eq_refl)
    as (Hvalue & Hvalid & _ & _ & Hcalls & _).
  split; [exact Hvalue|]. split; [now apply Hvalid|exact Hcalls].
Defined.

(** [invalid_wrapper_never_destroys] applies: an invalid wrapper and a
    library that would answer 5. *)
Lemma invalid_wrapper_never_destroys_witness :
  m_valid Sim.empty = false /\
  Sim.destroy (Sim.empty, Sim.boot [5]) = (22, (Sim.empty, Sim.boot [5])) /\
  machine_after (Sim.attach 9 (Sim.empty, Sim.boot [5])) = Sim.boot [5] /\
  calls (machine_after (Sim.init None (Sim.empty, Sim.boot [5])))
    = [call_init].
Proof.
  destruct (@invalid_wrapper_never_destroys _ Sim.errno Sim.params None 9
              Sim.empty (Sim.boot [5]) eq_refl)
    as (Hdestroy & Hattach & _ & Hinit & _).
  split; [reflexivity|]. split; [exact Hdestroy|].
  split; [exact Hattach|exact Hinit].
Defined.

(** [mutex_dtor_destroys_once] applies: a mutex constructed with default
    attributes, locked (refused with 35) and try-locked (busy) before it is
    destructed. *)
Lemma mutex_dtor_destroys_once_witness :
  Sim.new_mutex None 0 (Sim.boot [0; 35; 16])
    = (returned Sim.made, Machine [35; 16] [call_init]) /\
  calls (Sim.delete_mutex
           (fst (Sim.run [op_lock; op_trylock]
                   (Sim.made, Machine [35; 16] [call_init])))
           (snd (Sim.run [op_lock; op_trylock]
                   (Sim.made, Machine [35; 16] [call_init]))))
    = [call_init; call_lock; call_trylock; call_destroy].
Proof.
  assert (Hnew : Sim.new_mutex None 0 (Sim.boot [0; 35; 16])
                 = (returned Sim.made, Machine [35; 16] [call_init]))
    by reflexivity.
  split; [exact Hnew|].
  apply (@mutex_dtor_destroys_once _ Sim.errno Sim.lib Sim.made
           (Machine [35; 16] [call_init]) [op_lock; op_trylock]
           (@constructed_attrs _ Sim.errno Sim.lib None 0
              (Sim.boot [0; 35; 16]) Sim.made _ Hnew)).
Defined.

(** [constructed_mutex_handle_not_null] applies: the same mutex after a
    refused lock. *)
Lemma constructed_mutex_handle_not_null_witness :
  Sim.new_mutex None 0 (Sim.boot [0; 35; 16])
    = (returned Sim.made, Machine [35; 16] [call_init]) /\
  mutex_handle (L := Sim.lib)
    (Sim.run [op_lock] (Sim.made, Machine [35; 16] [call_init]))
    = (returned addr_m_object,
       Sim.run [op_lock] (Sim.made, Machine [35; 16] [call_init])).
Proof.
  assert (Hnew : Sim.new_mutex None 0 (Sim.boot [0; 35; 16])
                 = (returned Sim.made, Machine [35; 16] [call_init]))
    by reflexivity.
  split; [exact Hnew|].
  apply (@constructed_mutex_handle_not_null _ Sim.errno Sim.lib Sim.made
           (Machine [35; 16] [call_init]) [op_lock]
           (@constructed_attrs _ Sim.errno Sim.lib None 0
              (Sim.boot [0; 35; 16]) Sim.made _ Hnew)).
Defined.

(** [mutex_wrapper_guard_on_invalid] applies: the library answers 22 to
    both calls on the null pointer. *)
Lemma mutex_wrapper_guard_on_invalid_witness :
  m_valid Sim.empty = false /\
  os (machine_after (Sim.wrapper_guard_block (Sim.empty, Sim.boot [22; 22])))
    = [] /\
  calls (machine_after
           (Sim.wrapper_guard_block (Sim.empty, Sim.boot [22; 22])))
    = [call_lock; call_unlock].
Proof.
  destruct (@mutex_wrapper_guard_on_invalid _ Sim.lib Sim.empty
              (Sim.boot [22; 22]) 22 None [22] 22 None []
              eq_refl eq_refl eq_refl)
    as (_ & Hos & Hcalls & _).
  split; [reflexivity|]. split; [exact Hos|exact Hcalls].
Defined.

(** [mutex_wrapper_guard_survives_detach] applies: the library accepts
    both calls. *)
Lemma mutex_wrapper_guard_survives_detach_witness :
  m_valid Sim.held = true /\
  is_valid (object_after
              (Sim.wrapper_guard_block_detach (Sim.held, Sim.boot [0; 0])))
    = false /\
  calls (machine_after
           (Sim.wrapper_guard_block_detach (Sim.held, Sim.boot [0; 0])))
    = [call_lock; call_unlock].
Proof.
  destruct (@mutex_wrapper_guard_survives_detach _ Sim.lib Sim.held
              (Sim.boot [0; 0]) 0 (Some 7) [0] 0 (Some 7) []
              eq_refl eq_refl eq_refl)
    as (Hvalid & _ & _ & Hcalls & _).
  split; [reflexivity|]. split; [exact Hvalid|exact Hcalls].
Defined.

(** [mutex_guard_lifetime] applies: the lock call is refused with 35. *)
Lemma mutex_guard_lifetime_witness :
  value (Sim.guard_block (Sim.mtx, Sim.boot [35])) = thrown (Fatal_error 35)
  /\
  calls (machine_after (Sim.guard_block (Sim.mtx, Sim.boot [35])))
    = [call_lock].
Proof.
  destruct (@mutex_guard_lifetime _ Sim.lib Sim.mtx (Sim.boot [35])
              35 (Some 7) [] 0 (Some 7) [] eq_refl eq_refl)
    as (Hrefused & _).
  destruct (Hrefused ltac:(discriminate)) as (_ & Hvalue & Hcalls & _).
  split; [exact Hvalue|exact Hcalls].
Defined.

(** [destroy_code_tells_validity] applies: [EINVAL] is 22, and a refused
    destroy call leaves a valid wrapper valid. *)
Lemma destroy_code_tells_validity_witness :
  22 <> 0 /\
  is_valid (object_after (Sim.destroy (Sim.held, Sim.boot [16])))
    = is_valid Sim.held.
Proof.
  assert (Hinval : @EINVAL Sim.errno <> 0) by discriminate.
  destruct (@destroy_code_tells_validity _ Sim.errno Sim.base Sim.held
              (Sim.boot [16]) Hinval)
    as (_ & Hkept).
  split; [exact Hinval|]. apply Hkept. vm_compute. discriminate.
Defined.
